(** * turing_machine: a Turing machine simulator with a singly-infinite tape

    A shallow embedding of [turing_machine.py] (class [TuringMachine]) and of
    the machines used by [test_turing_machine.py] and [w_hash_w.py].

    The Python generator [run] keeps its tape in two list objects that it
    mutates in place and that every yielded configuration dictionary refers
    to.  The embedding therefore has a store of list objects addressed by
    location, and a yielded configuration holds locations, not values. *)

From Stdlib Require Import ZArith String Ascii.
From stdpp Require Import base option list strings gmap.

Local Open Scope string_scope.
Local Open Scope list_scope.
Local Open Scope nat_scope.

(** ** Values *)

(** States, symbols and directions are Python strings; a character of a
    Python string is one [ascii] here, so the strings covered are those
    whose characters have a code below 256. *)
Abbreviation pystr := string.

(** The two non-[None] actions, ['Accept'] and ['Reject']. *)
Inductive action := Accept | Reject.

#[global] Instance action_eq_dec : EqDecision action.
Proof. solve_decision. Defined.

(** The exceptions the modelled code can raise. *)
Inductive exn := AssertionError | IndexError.

#[global] Instance exn_eq_dec : EqDecision exn.
Proof. solve_decision. Defined.

(** The two messages sent to [logging]. *)
Inductive log_record :=
| LeftmostWarning              (* 'An attempt to move left from the leftmost cell! ...' *)
| StepLimitWarning (n : nat).  (* 'The step limit of %s steps  is reached!' *)

(** [input_]: a string (each letter is a symbol) or a list of strings. *)
Inductive input :=
| InStr (s : pystr)
| InList (l : list pystr).

(** ** The store: list objects and the log *)

Definition loc := nat.

Record world := World {
  heap : list (list pystr);   (* the list objects, by location *)
  log : list log_record;      (* what [logging] has received, oldest first *)
}.

Definition init_world : world := World [] [].

(** ** Computations that mutate the store and may raise *)

Inductive result (A : Type) :=
| Ok (a : A)
| Raise (e : exn).
Arguments Ok {A} a.
Arguments Raise {A} e.

Definition M (A : Type) : Type := world → result A * world.

Definition ret {A} (a : A) : M A := λ w, (Ok a, w).
Definition raise {A} (e : exn) : M A := λ w, (Raise e, w).
Definition bind {A B} (c : M A) (k : A → M B) : M B :=
  λ w, match c w with
       | (Ok a, w') => k a w'
       | (Raise e, w') => (Raise e, w')
       end.

(** [try: c except e: h] *)
Definition try_except {A} (c : M A) (e : exn) (h : M A) : M A :=
  λ w, match c w with
       | (Raise e', w') => if decide (e' = e) then h w' else (Raise e', w')
       | r => r
       end.

Declare Scope py_scope.
Delimit Scope py_scope with py.
Notation "x <- c ;; k" := (bind c (λ x, k))
  (at level 100, c at next level, right associativity) : py_scope.
Notation "c ;;; k" := (bind c (λ _, k))
  (at level 100, right associativity) : py_scope.
Local Open Scope py_scope.

(** *** List objects *)

(** [list(...)]: a new list object. *)
Definition new_list (v : list pystr) : M loc :=
  λ w, (Ok (length (heap w)), World (heap w ++ [v]) (log w)).

(** The current items of a list object.  Locations only come from
    [new_list], so the default of the total lookup is never seen. *)
Definition items (l : loc) (w : world) : list pystr := heap w !!! l.

(** [lst.insert(0, x)] *)
Definition list_insert0 (l : loc) (x : pystr) : M unit :=
  λ w, (Ok tt, World (<[l := x :: items l w]> (heap w)) (log w)).

(** [lst.pop(0)] *)
Definition list_pop0 (l : loc) : M pystr :=
  λ w, match items l w with
       | [] => (Raise IndexError, w)
       | x :: v => (Ok x, World (<[l := v]> (heap w)) (log w))
       end.

(** Truth value of a list: non-empty. *)
Definition list_bool (l : loc) : M bool :=
  λ w, (Ok (match items l w with [] => false | _ => true end), w).

(** [logging.warning(...)] *)
Definition logging_warning (r : log_record) : M unit :=
  λ w, (Ok tt, World (heap w) (log w ++ [r])).

(** [assert b] (assertions are on) *)
Definition assert (b : bool) : M unit :=
  if b then ret tt else raise AssertionError.

(** *** Strings *)

(** [a in b] for strings: [a] is a substring of [b]. *)
Fixpoint str_in (a b : pystr) : bool :=
  String.prefix a b ||
  match b with
  | EmptyString => false
  | String _ b' => str_in a b'
  end.

Arguments str_in : simpl never.

(** The letters of a string, each a one-letter string. *)
Fixpoint letters (s : pystr) : list pystr :=
  match s with
  | EmptyString => []
  | String c s' => String c EmptyString :: letters s'
  end.

(** ** class TuringMachine *)

Record TuringMachine := {
  blank_symbol : pystr;
  transitions : gmap (pystr * pystr) (pystr * pystr * pystr);
  start_state : pystr;
  reject_state : pystr;
  states_to_actions : gmap pystr action;
}.

(** [__init__]: stores its arguments; the dictionary display for
    [states_to_actions] writes the accept state first, so the reject state
    wins when the two are equal.  Nothing is checked and nothing raises. *)
Definition init (transitions0 : gmap (pystr * pystr) (pystr * pystr * pystr))
    (start_state0 accept_state0 reject_state0 blank_symbol0 : pystr) : result TuringMachine :=
  Ok {| blank_symbol := blank_symbol0;
        transitions := transitions0;
        start_state := start_state0;
        reject_state := reject_state0;
        states_to_actions := <[reject_state0 := Reject]> (<[accept_state0 := Accept]> ∅) |}.

(** The object a successful construction gives. *)
Definition constructed (r : result TuringMachine) : TuringMachine :=
  match r with
  | Ok m => m
  | Raise _ => Build_TuringMachine "" ∅ "" "" ∅
  end.

(** The constructor with its default arguments:
    [start_state='q0', accept_state='qa', reject_state='qr', blank_symbol='']. *)
Definition init_default (transitions0 : gmap (pystr * pystr) (pystr * pystr * pystr))
  : result TuringMachine :=
  init transitions0 "q0" "qa" "qr" "".

(** A dictionary display [{k1: v1, k2: v2, ...}]: later items overwrite
    earlier ones. *)
Definition dict_display {K V} `{Countable K} (kvs : list (K * V)) : gmap K V :=
  foldl (λ d kv, <[kv.1 := kv.2]> d) ∅ kvs.

(** *** run *)

(** The configuration dictionary as yielded: the two tape entries are
    references to the generator's own list objects. *)
Record snapshot := Snapshot {
  snap_state : pystr;
  snap_left_hand_side : loc;
  snap_symbol : pystr;
  snap_right_hand_side : loc;
}.

Definition observation : Type := option action * snapshot.

(** A generator object of [run]: not started yet, suspended at the [yield]
    with its local variables, or finished. *)
Inductive generator :=
| Created (input_ : input)
| Suspended (state symbol : pystr) (left_hand_side right_hand_side : loc)
            (action_ : option action)
| Finished.

(** Calling [run] only creates the generator; no code of the body runs. *)
Definition run (input_ : input) : generator := Created input_.

(** [not input_] *)
Definition input_empty (input_ : input) : bool :=
  match input_ with
  | InStr EmptyString | InList [] => true
  | _ => false
  end.

(** The items of [input_] as a sequence: the letters of a string, the
    elements of a list. *)
Definition input_items (input_ : input) : list pystr :=
  match input_ with
  | InStr s => letters s
  | InList l => l
  end.

(** [self.transitions.get((state, symbol), (self.reject_state, symbol, 'R'))] *)
Definition transition (m : TuringMachine) (state symbol : pystr) : pystr * pystr * pystr :=
  default (reject_state m, symbol, "R") (transitions m !! (state, symbol)).

(** The top of the [while True] loop up to the [yield]. *)
Definition loop_top (m : TuringMachine) (state symbol : pystr)
    (left_hand_side right_hand_side : loc) : M (option observation * generator) :=
  let action_ := states_to_actions m !! state in
  ret (Some (action_, Snapshot state left_hand_side symbol right_hand_side),
       Suspended state symbol left_hand_side right_hand_side action_).

(** The loop body after the [yield]: the halting check, the transition and
    the move.  [None] stands for [break]. *)
Definition loop_rest (m : TuringMachine) (state symbol : pystr)
    (left_hand_side right_hand_side : loc) (action_ : option action)
  : M (option (pystr * pystr)) :=
  match action_ with
  | Some _ => ret None
  | None =>
    let '(state, symbol, direction) := transition m state symbol in
    if decide (direction = "R") then
      list_insert0 left_hand_side symbol ;;;
      symbol <- try_except (list_pop0 right_hand_side) IndexError
                           (ret (blank_symbol m)) ;;
      ret (Some (state, symbol))
    else
      nonempty <- list_bool left_hand_side ;;
      if nonempty : bool then
        list_insert0 right_hand_side symbol ;;;
        symbol <- list_pop0 left_hand_side ;;
        ret (Some (state, symbol))
      else
        assert (str_in direction "LR") ;;;
        logging_warning LeftmostWarning ;;;
        ret (Some (state, symbol))
  end.

(** [next(generator)]: run the body up to the next [yield].  [Ok (None, _)]
    is [StopIteration]; an exception raised by the body propagates to the
    caller (and leaves the generator finished). *)
Definition next (m : TuringMachine) (g : generator) : M (option observation * generator) :=
  match g with
  | Created input_ =>
    let state := start_state m in
    left_hand_side <- new_list [blank_symbol m] ;;
    let input_ := if input_empty input_ then InList [blank_symbol m] else input_ in
    match input_items input_ with
    | [] => raise IndexError                      (* input_[0] *)
    | symbol :: rest =>
      right_hand_side <- new_list rest ;;         (* list(input_[1:]) *)
      loop_top m state symbol left_hand_side right_hand_side
    end
  | Suspended state symbol left_hand_side right_hand_side action_ =>
    r <- loop_rest m state symbol left_hand_side right_hand_side action_ ;;
    match r with
    | None => ret (None, Finished)
    | Some (state, symbol) => loop_top m state symbol left_hand_side right_hand_side
    end
  | Finished => ret (None, Finished)
  end.

(** [list(islice(g, stop))]: at most [stop] calls of [next], none when
    [stop] is 0, stopping at the first [StopIteration]. *)
Fixpoint list_islice (m : TuringMachine) (g : generator) (stop : nat)
  : M (list observation) :=
  match stop with
  | O => ret []
  | S stop' =>
    r <- next m g ;;
    match r with
    | (None, _) => ret []
    | (Some o, g') => os <- list_islice m g' stop' ;; ret (o :: os)
    end
  end.

(** *** accepts, rejects *)

(** [accepts(self, input_, step_limit=100)]; [lst[-1]] raises [IndexError]
    on an empty list. *)
Definition accepts (m : TuringMachine) (input_ : input) (step_limit : nat) : M (option bool) :=
  os <- list_islice m (run input_) step_limit ;;
  match last os with
  | None => raise IndexError
  | Some (Some action_, _) => ret (Some (bool_decide (action_ = Accept)))
  | Some (None, _) => logging_warning (StepLimitWarning step_limit) ;;; ret None
  end.

Definition default_step_limit : nat := 100.

(** A call that may leave [step_limit] out. *)
Definition accepts_kw (m : TuringMachine) (input_ : input) (kwargs : option nat)
  : M (option bool) :=
  accepts m input_ (default default_step_limit kwargs).

(** [rejects(self, input_, **kwargs)] *)
Definition rejects (m : TuringMachine) (input_ : input) (kwargs : option nat)
  : M (option bool) :=
  accepts_ <- accepts_kw m input_ kwargs ;;
  match accepts_ with
  | Some b => ret (Some (negb b))
  | None => ret None
  end.

(** ** The machines of the tests *)

(** The [transitions] fixture of [test_turing_machine.py], which is also
    the table of [w_hash_w.py]. *)
Definition w_hash_w_transitions : gmap (pystr * pystr) (pystr * pystr * pystr) :=
  dict_display [
    (("q0", "#"), ("End", "#", "R"));
    (("End", ""), ("qa", "", "R"));

    (("q0", "0"), ("FindDelimiter0", "X", "R"));
    (("FindDelimiter0", "#"), ("Check0", "#", "R"));
    (("Check0", "0"), ("FindLeftmost", "X", "L"));

    (("q0", "1"), ("FindDelimiter1", "X", "R"));
    (("FindDelimiter1", "#"), ("Check1", "#", "R"));
    (("Check1", "1"), ("FindLeftmost", "X", "L"));

    (("FindLeftmost", "0"), ("FindLeftmost", "0", "L"));
    (("FindLeftmost", "1"), ("FindLeftmost", "1", "L"));
    (("FindLeftmost", "X"), ("FindLeftmost", "X", "L"));
    (("FindLeftmost", "#"), ("FindLeftmost", "#", "L"));
    (("FindLeftmost", ""), ("FindNext", "", "R"));

    (("FindNext", "X"), ("FindNext", "X", "R"));
    (("FindNext", "0"), ("FindDelimiter0", "X", "R"));
    (("FindNext", "1"), ("FindDelimiter1", "X", "R"));
    (("FindNext", "#"), ("End", "#", "R"));

    (("FindDelimiter0", "0"), ("FindDelimiter0", "0", "R"));
    (("FindDelimiter0", "1"), ("FindDelimiter0", "1", "R"));
    (("FindDelimiter1", "0"), ("FindDelimiter1", "0", "R"));
    (("FindDelimiter1", "1"), ("FindDelimiter1", "1", "R"));

    (("Check0", "X"), ("Check0", "X", "R"));
    (("Check1", "X"), ("Check1", "X", "R"));

    (("End", "X"), ("End", "X", "R"))
  ].

Definition w_hash_w : TuringMachine :=
  constructed (init_default w_hash_w_transitions).

(** The machine of [test_go_left]: [{('q0', ''): ('q0', '', 'L')}]. *)
Definition go_left : TuringMachine :=
  constructed (init_default (dict_display [ (("q0", ""), ("q0", "", "L")) ])).

(** The machine of the module docstring, [one_hash]. *)
Definition one_hash : TuringMachine :=
  constructed (init_default (dict_display [
    (("q0", "#"), ("saw_#", "#", "R"));
    (("saw_#", ""), ("qa", "", "R")) ])).

(** ** Reading observations *)

(** What a caller sees when it reads a configuration dictionary: the
    current items of the two lists it refers to. *)
Record configuration := Configuration {
  cfg_state : pystr;
  cfg_left : list pystr;
  cfg_symbol : pystr;
  cfg_right : list pystr;
}.

#[global] Instance configuration_eq_dec : EqDecision configuration.
Proof. solve_decision. Defined.

Definition view (w : world) (s : snapshot) : configuration :=
  Configuration (snap_state s) (items (snap_left_hand_side s) w)
                (snap_symbol s) (items (snap_right_hand_side s) w).

(** A caller that pulls up to [n] observations and reads each one as soon
    as it gets it, before resuming the generator (as [debug] and
    [test_go_left] do). *)
Fixpoint observe (m : TuringMachine) (g : generator) (n : nat)
  : M (list (option action * configuration)) :=
  match n with
  | O => ret []
  | S n' =>
    r <- next m g ;;
    match r with
    | (None, _) => ret []
    | (Some o, g') =>
      v <- (λ w, (Ok (o.1, view w o.2), w)) ;;
      vs <- observe m g' n' ;;
      ret (v :: vs)
    end
  end.

(** ** The run on values *)

(** The loop of [run] with the tape as values; the proofs below relate it
    to the generator on the store. *)

Definition action_of (m : TuringMachine) (c : configuration) : option action :=
  states_to_actions m !! cfg_state c.

(** The configuration of the first [yield]. *)
Definition seed (m : TuringMachine) (input_ : input) : configuration :=
  let its := input_items (if input_empty input_ then InList [blank_symbol m] else input_) in
  Configuration (start_state m) [blank_symbol m] (hd (blank_symbol m) its) (tl its).

(** One transition and move from a configuration that does not halt. *)
Definition step (m : TuringMachine) (c : configuration)
  : result (configuration * list log_record) :=
  let '(state, symbol, direction) := transition m (cfg_state c) (cfg_symbol c) in
  if decide (direction = "R") then
    Ok (Configuration state (symbol :: cfg_left c)
                      (hd (blank_symbol m) (cfg_right c)) (tl (cfg_right c)), [])
  else
    match cfg_left c with
    | x :: lhs => Ok (Configuration state lhs x (symbol :: cfg_right c), [])
    | [] =>
      if str_in direction "LR"
      then Ok (Configuration state [] symbol (cfg_right c), [LeftmostWarning])
      else Raise AssertionError
    end.

(** The configurations of up to [n] further yields after [c] was yielded,
    with the warnings logged on the way. *)
Fixpoint pulls (m : TuringMachine) (n : nat) (c : configuration)
  : result (list configuration * list log_record) :=
  match n with
  | O => Ok ([], [])
  | S n' =>
    match action_of m c with
    | Some _ => Ok ([], [])
    | None =>
      match step m c with
      | Raise e => Raise e
      | Ok (c', lg) =>
        match pulls m n' c' with
        | Raise e => Raise e
        | Ok (cs, lg') => Ok (c' :: cs, lg ++ lg')
        end
      end
    end
  end.

(** The configurations of up to [n] yields of a fresh run. *)
Definition run_values (m : TuringMachine) (input_ : input) (n : nat)
  : result (list configuration * list log_record) :=
  match n with
  | O => Ok ([], [])
  | S n' =>
    match pulls m n' (seed m input_) with
    | Raise e => Raise e
    | Ok (cs, lg) => Ok (seed m input_ :: cs, lg)
    end
  end.

(** Every direction of the table is ['L'] or ['R']. *)
Definition directions_ok (m : TuringMachine) : Prop :=
  map_Forall (λ _ v, v.2 = "L" ∨ v.2 = "R") (transitions m).

#[global] Instance directions_ok_dec m : Decision (directions_ok m).
Proof. unfold directions_ok. apply _. Defined.

(** ** The generator's store and the values it holds *)

(** The generator's lists [l] and [r] hold the tape of [c]. *)
Definition tape_at (w : world) (l r : loc) (c : configuration) : Prop :=
  l ≠ r ∧ heap w !! l = Some (cfg_left c) ∧ heap w !! r = Some (cfg_right c).

(** The observation yielded for [c], and the generator suspended there. *)
Definition obs_of (m : TuringMachine) (l r : loc) (c : configuration) : observation :=
  (action_of m c, Snapshot (cfg_state c) l (cfg_symbol c) r).

Definition gen_of (m : TuringMachine) (l r : loc) (c : configuration) : generator :=
  Suspended (cfg_state c) (cfg_symbol c) l r (action_of m c).

(** What is read from the observation yielded for [c]. *)
Definition read_of (m : TuringMachine) (c : configuration) : option action * configuration :=
  (action_of m c, c).

(** The store with the tape of [c] in [l] and [r] and [lg] logged. *)
Definition put (w : world) (l r : loc) (c : configuration) (lg : list log_record) : world :=
  World (<[r := cfg_right c]> (<[l := cfg_left c]> (heap w))) (log w ++ lg).

(** The store after the two lists of a fresh run were made. *)
Definition created (w : world) (c : configuration) : world :=
  World (heap w ++ [cfg_left c; cfg_right c]) (log w).

(** The last of [c :: cs]. *)
Definition last_cfg (c : configuration) (cs : list configuration) : configuration :=
  default c (last cs).

(** The value of [accepts] from the run on values. *)
Definition accepts_value (m : TuringMachine) (input_ : input) (n : nat) : result (option bool) :=
  match run_values m input_ n with
  | Raise e => Raise e
  | Ok (cs, _) =>
    match last cs with
    | None => Raise IndexError
    | Some c =>
      Ok (match action_of m c with
          | Some a => Some (bool_decide (a = Accept))
          | None => None
          end)
    end
  end.

(** The table [{('q0', ''): ('q0', '', 'X')}], with a direction that is
    neither ['L'] nor ['R']. *)
Definition bad_direction_transitions : gmap (pystr * pystr) (pystr * pystr * pystr) :=
  dict_display [ (("q0", ""), ("q0", "", "X")) ].

(** The two configurations of [test_go_left]. *)
Definition go_left_first : configuration := Configuration "q0" [""] "" [].
Definition go_left_origin : configuration := Configuration "q0" [] "" [""].

(** ** debug *)

(** Standard output, as the list of the lines printed so far; each [print]
    adds one line. *)
Definition stdout : Type := list pystr.

Fixpoint spaces (n : nat) : pystr :=
  match n with
  | O => ""
  | S n' => String " " (spaces n')
  end.

(** [{state:<30}]: the text, then spaces up to a width of 30; a longer
    text is not cut. *)
Definition format_left30 (s : pystr) : pystr :=
  s +:+ spaces (30 - String.length s).

(** [''.join(l)] *)
Definition join (l : list pystr) : pystr := foldr String.app "" l.

(** [b='\x1b[47;1m' if colored else '['] and [f='\x1b[0m' if colored else ']'] *)
Definition begin_marker (colored : bool) : pystr :=
  if colored then String "027" "[47;1m" else "[".

Definition end_marker (colored : bool) : pystr :=
  if colored then String "027" "[0m" else "]".

(** ['{state:<30} {left}{b}{symbol}{f}{right}'.format(...)] on the
    configuration as it reads when the line is printed. *)
Definition format_line (colored : bool) (c : configuration) : pystr :=
  format_left30 (cfg_state c) +:+ " " +:+ join (rev (cfg_left c)) +:+
  begin_marker colored +:+ cfg_symbol c +:+ end_marker colored +:+ join (cfg_right c).

(** The [for] loop of [debug] over [islice(g, n)]: each observation is
    printed before the generator is resumed.  What was printed stays
    printed when the generator raises. *)
Fixpoint debug_loop (m : TuringMachine) (colored : bool) (g : generator) (n : nat)
    (out : stdout) (w : world) : result unit * world * stdout :=
  match n with
  | O => (Ok tt, w, out)
  | S n' =>
    match next m g w with
    | (Raise e, w') => (Raise e, w', out)
    | (Ok (None, _), w') => (Ok tt, w', out)
    | (Ok (Some (_, configuration_), g'), w') =>
      debug_loop m colored g' n' (out ++ [format_line colored (view w' configuration_)]) w'
    end
  end.

(** [debug(self, input_, step_limit=100, colored=False)] *)
Definition debug (m : TuringMachine) (input_ : input) (step_limit : nat) (colored : bool)
    (out : stdout) (w : world) : result unit * world * stdout :=
  debug_loop m colored (run input_) step_limit out w.

(** ** The script w_hash_w.py *)

(** The truth value an [assert] looks at: [None] and [False] fail. *)
Definition truthy (r : option bool) : bool :=
  match r with
  | Some true => true
  | _ => false
  end.

(** The three [assert] statements of the script. *)
Definition w_hash_w_asserts : M unit :=
  a <- accepts_kw w_hash_w (InStr "#") None ;;
  assert (truthy a) ;;;
  a <- accepts_kw w_hash_w (InStr "1#1") None ;;
  assert (truthy a) ;;;
  r <- rejects w_hash_w (InStr "##") None ;;
  assert (truthy r).

(** The module body: the asserts, then [w_hash_w.debug('10#10')]. *)
Definition w_hash_w_script (out : stdout) (w : world) : result unit * world * stdout :=
  match w_hash_w_asserts w with
  | (Raise e, w') => (Raise e, w', out)
  | (Ok _, w') => debug w_hash_w (InStr "10#10") default_step_limit false out w'
  end.

(** ** The tape as one sequence *)

(** The cells of the tape from the leftmost one, and the position of the
    head among them: [left_hand_side] has the nearest cell first. *)
Definition tape (c : configuration) : list pystr :=
  rev (cfg_left c) ++ cfg_symbol c :: cfg_right c.

Definition head_position (c : configuration) : nat := length (cfg_left c).


(** ** The generator on the store against the run on values *)

Section store.
Context (m : TuringMachine).

Lemma items_lookup w l v : heap w !! l = Some v → items l w = v.
Proof. intros H. unfold items. by apply list_lookup_total_correct. Qed.

Lemma tape_at_put w l r c c' lg : tape_at w l r c → tape_at (put w l r c' lg) l r c'.
Proof.
  intros (Hne & Hl & Hr). apply lookup_lt_Some in Hl, Hr.
  split; [done|]. unfold put; simpl. split.
  - rewrite list_lookup_insert_ne by done. apply list_lookup_insert_eq. done.
  - apply list_lookup_insert_eq. by rewrite length_insert.
Qed.

Lemma put_same w l r c : tape_at w l r c → put w l r c [] = w.
Proof.
  intros (Hne & Hl & Hr). destruct w as [h lg]; simpl in *. unfold put; simpl.
  rewrite app_nil_r. f_equal.
  rewrite (list_insert_id h l) by done. by rewrite list_insert_id.
Qed.

Lemma put_put w l r c c' lg lg' :
  put (put w l r c lg) l r c' lg' = put w l r c' (lg ++ lg').
Proof.
  unfold put; simpl. rewrite app_assoc. f_equal.
  destruct (decide (l = r)) as [->|Hne].
  - by rewrite !list_insert_insert_eq.
  - rewrite (list_insert_insert_ne _ l r) by done.
    by rewrite !list_insert_insert_eq.
Qed.

Lemma view_put w l r c c' lg :
  tape_at w l r c → view (put w l r c' lg) (obs_of m l r c').2 = c'.
Proof.
  intros H. pose proof (tape_at_put _ _ _ _ c' lg H) as (_ & Hl & Hr).
  unfold view; simpl. rewrite (items_lookup _ _ _ Hl), (items_lookup _ _ _ Hr).
  by destruct c'.
Qed.

(** The first [next]: two new lists, then the first [yield]. *)
Lemma next_created input_ w :
  next m (Created input_) w =
    (Ok (Some (obs_of m (length (heap w)) (S (length (heap w))) (seed m input_)),
         gen_of m (length (heap w)) (S (length (heap w))) (seed m input_)),
     created w (seed m input_)).
Proof.
  unfold seed, created.
  assert (Hne : input_items (if input_empty input_ then InList [blank_symbol m] else input_) ≠ []).
  { destruct input_ as [[|a s]|[|x v]]; simpl; congruence. }
  unfold next, bind, new_list; simpl.
  destruct (input_items _) as [|symbol rest]; [done|]. simpl.
  unfold loop_top, ret, obs_of, gen_of, action_of; simpl.
  rewrite length_app; simpl. rewrite Nat.add_1_r.
  by rewrite <- app_assoc.
Qed.

Lemma tape_at_created w c :
  tape_at (created w c) (length (heap w)) (S (length (heap w))) c.
Proof.
  split; [lia|]. simpl. split.
  - rewrite lookup_app_r by lia. by rewrite Nat.sub_diag.
  - rewrite lookup_app_r by lia.
    by replace (S (length (heap w)) - length (heap w)) with 1 by lia.
Qed.

(** A later [next] from a configuration that does not halt. *)
Lemma next_suspended w l r c :
  tape_at w l r c → action_of m c = None →
  next m (gen_of m l r c) w =
    match step m c with
    | Ok (c', lg) => (Ok (Some (obs_of m l r c'), gen_of m l r c'), put w l r c' lg)
    | Raise e => (Raise e, w)
    end.
Proof.
  intros (Hne & Hl & Hr) Hact. unfold gen_of at 1. rewrite Hact.
  unfold next, loop_rest, step.
  destruct (transition m (cfg_state c) (cfg_symbol c)) as [[state symbol] direction].
  assert (Hlen := lookup_lt_Some _ _ _ Hl). assert (Hlen' := lookup_lt_Some _ _ _ Hr).
  destruct w as [h lg0]; simpl in *.
  destruct (decide (direction = "R")) as [->|Hd].
  - unfold bind, list_insert0, try_except, list_pop0, items; simpl.
    rewrite (list_lookup_total_correct _ _ _ Hl).
    rewrite (list_lookup_total_correct (<[l:=_]> h) r (cfg_right c))
      by (by rewrite list_lookup_insert_ne).
    unfold put; simpl. rewrite app_nil_r.
    destruct (cfg_right c) as [|x v] eqn:Hright; simpl.
    + rewrite (list_insert_id (<[l:=_]> h) r []) by (by rewrite list_lookup_insert_ne).
      done.
    + done.
  - unfold bind, list_bool, items; simpl.
    rewrite (list_lookup_total_correct _ _ _ Hl).
    destruct (cfg_left c) as [|x lhs] eqn:Hleft; simpl.
    + unfold assert. destruct (str_in direction "LR"); simpl; [|done].
      unfold put; simpl.
      rewrite (list_insert_id h l) by done. by rewrite list_insert_id.
    + unfold list_insert0, list_pop0, items; simpl.
      rewrite (list_lookup_total_correct (<[r:=_]> h) l (x :: lhs))
        by (by rewrite list_lookup_insert_ne).
      rewrite (list_lookup_total_correct _ _ _ Hr).
      unfold put; simpl. rewrite app_nil_r.
      by rewrite (list_insert_insert_ne _ l r).
Qed.

(** A [next] after a halting configuration was yielded: [StopIteration]. *)
Lemma next_halted w l r c a :
  action_of m c = Some a → next m (gen_of m l r c) w = (Ok (None, Finished), w).
Proof. intros Hact. unfold gen_of. rewrite Hact. done. Qed.


Lemma last_cfg_cons c c' cs : last_cfg c (c' :: cs) = last_cfg c' cs.
Proof. unfold last_cfg. rewrite last_cons. by destruct (last cs). Qed.

(** [n] further pulls, kept as yielded. *)
Lemma list_islice_suspended n : ∀ w l r c,
  tape_at w l r c →
  match pulls m n c with
  | Ok (cs, lg) =>
    list_islice m (gen_of m l r c) n w =
      (Ok (obs_of m l r <$> cs), put w l r (last_cfg c cs) lg)
  | Raise e => ∃ w', list_islice m (gen_of m l r c) n w = (Raise e, w')
  end.
Proof.
  induction n as [|n IH]; intros w l r c Ht; cbn [list_islice pulls].
  - unfold ret, last_cfg; simpl. by rewrite put_same.
  - destruct (action_of m c) as [a|] eqn:Hact.
    + unfold bind. rewrite (next_halted _ _ _ _ _ Hact).
      unfold ret, last_cfg; simpl. by rewrite put_same.
    + unfold bind. rewrite next_suspended by done.
      destruct (step m c) as [[c' lg]|e]; [|eexists; reflexivity].
      specialize (IH (put w l r c' lg) l r c' (tape_at_put _ _ _ _ _ _ Ht)).
      destruct (pulls m n c') as [[cs lg']|e].
      * unfold bind. rewrite IH. unfold ret; simpl. by rewrite put_put, last_cfg_cons.
      * destruct IH as [w' IH]. unfold bind. rewrite IH. eexists; reflexivity.
Qed.

(** [n] further pulls, each read when it is yielded. *)
Lemma observe_suspended n : ∀ w l r c,
  tape_at w l r c →
  match pulls m n c with
  | Ok (cs, lg) =>
    observe m (gen_of m l r c) n w =
      (Ok (read_of m <$> cs), put w l r (last_cfg c cs) lg)
  | Raise e => ∃ w', observe m (gen_of m l r c) n w = (Raise e, w')
  end.
Proof.
  induction n as [|n IH]; intros w l r c Ht; cbn [observe pulls].
  - unfold ret, last_cfg; simpl. by rewrite put_same.
  - destruct (action_of m c) as [a|] eqn:Hact.
    + unfold bind. rewrite (next_halted _ _ _ _ _ Hact).
      unfold ret, last_cfg; simpl. by rewrite put_same.
    + unfold bind. rewrite next_suspended by done.
      destruct (step m c) as [[c' lg]|e]; [|eexists; reflexivity].
      cbn beta iota. rewrite (view_put _ _ _ _ c' lg Ht).
      specialize (IH (put w l r c' lg) l r c' (tape_at_put _ _ _ _ _ _ Ht)).
      destruct (pulls m n c') as [[cs lg']|e].
      * unfold bind. rewrite IH. unfold ret; simpl. by rewrite put_put, last_cfg_cons.
      * destruct IH as [w' IH]. unfold bind. rewrite IH. eexists; reflexivity.
Qed.

Lemma view_created w c :
  view (created w c) (obs_of m (length (heap w)) (S (length (heap w))) c).2 = c.
Proof.
  destruct (tape_at_created w c) as (_ & Hl & Hr).
  unfold view; simpl.
  rewrite (items_lookup _ _ _ Hl), (items_lookup _ _ _ Hr). by destruct c.
Qed.

(** A fresh run, pulled [S n] times and kept as yielded. *)
Lemma list_islice_run input_ n w :
  match pulls m n (seed m input_) with
  | Ok (cs, lg) =>
    list_islice m (run input_) (S n) w =
      (Ok (obs_of m (length (heap w)) (S (length (heap w))) <$> seed m input_ :: cs),
       put (created w (seed m input_)) (length (heap w)) (S (length (heap w)))
           (last_cfg (seed m input_) cs) lg)
  | Raise e => ∃ w', list_islice m (run input_) (S n) w = (Raise e, w')
  end.
Proof.
  unfold run. cbn [list_islice]. unfold bind.
  rewrite next_created.
  pose proof (list_islice_suspended n _ _ _ _ (tape_at_created w (seed m input_))) as H.
  destruct (pulls m n (seed m input_)) as [[cs lg]|e].
  - by rewrite H.
  - destruct H as [w' H]. rewrite H. eexists; reflexivity.
Qed.

(** A fresh run, pulled [S n] times and read as it goes. *)
Lemma observe_run input_ n w :
  match pulls m n (seed m input_) with
  | Ok (cs, lg) =>
    observe m (run input_) (S n) w =
      (Ok (read_of m <$> seed m input_ :: cs),
       put (created w (seed m input_)) (length (heap w)) (S (length (heap w)))
           (last_cfg (seed m input_) cs) lg)
  | Raise e => ∃ w', observe m (run input_) (S n) w = (Raise e, w')
  end.
Proof.
  unfold run. cbn [observe]. unfold bind.
  rewrite next_created. cbn beta iota. rewrite view_created.
  pose proof (observe_suspended n _ _ _ _ (tape_at_created w (seed m input_))) as H.
  destruct (pulls m n (seed m input_)) as [[cs lg]|e].
  - by rewrite H.
  - destruct H as [w' H]. rewrite H. eexists; reflexivity.
Qed.

End store.

(** ** Facts about the run on values *)

Lemma str_in_LR d : str_in d "LR" = true ↔ d ∈ [""; "L"; "R"; "LR"].
Proof.
  rewrite !elem_of_cons, elem_of_nil. split.
  - destruct d as [|a [|b [|c d]]]; [by left| | |].
    + unfold str_in; simpl. repeat destruct (ascii_dec _ _); subst; simpl; naive_solver.
    + unfold str_in; simpl. repeat destruct (ascii_dec _ _); subst; simpl; naive_solver.
    + unfold str_in; simpl. repeat destruct (ascii_dec _ _); subst; simpl; naive_solver.
  - intros [->|[->|[->|[->|[]]]]]; reflexivity.
Qed.

Lemma transition_directions_ok m state symbol :
  directions_ok m →
  (transition m state symbol).2 = "L" ∨ (transition m state symbol).2 = "R".
Proof.
  intros Hm. unfold transition.
  destruct (transitions m !! (state, symbol)) as [v|] eqn:Hv; simpl; [|by right].
  exact (Hm _ _ Hv).
Qed.

Lemma step_ok m c : directions_ok m → ∃ c' lg, step m c = Ok (c', lg).
Proof.
  intros Hm. unfold step.
  pose proof (transition_directions_ok m (cfg_state c) (cfg_symbol c) Hm) as Hd.
  destruct (transition m (cfg_state c) (cfg_symbol c)) as [[state symbol] direction].
  simpl in Hd. destruct (decide (direction = "R")); [by eauto|].
  destruct Hd as [->| ->]; [|done].
  destruct (cfg_left c); by eauto.
Qed.

Lemma pulls_ok m n : ∀ c, directions_ok m → ∃ cs lg, pulls m n c = Ok (cs, lg).
Proof.
  induction n as [|n IH]; intros c Hm; simpl; [by eauto|].
  destruct (action_of m c); [by eauto|].
  destruct (step_ok m c Hm) as (c' & lg & ->).
  destruct (IH c' Hm) as (cs & lg' & ->). by eauto.
Qed.







(** ** The results of the calls, whatever the store *)

Lemma last_fmap_cons {A B} (f : A → B) (x : A) (xs : list A) :
  last (f <$> x :: xs) = Some (f (default x (last xs))).
Proof.
  rewrite fmap_last, last_cons. by destruct (last xs).
Qed.

Lemma accepts_fst m input_ n w : (accepts m input_ n w).1 = accepts_value m input_ n.
Proof.
  unfold accepts, accepts_value, run_values. destruct n as [|n]; [done|].
  pose proof (list_islice_run m input_ n w) as H.
  destruct (pulls m n (seed m input_)) as [[cs lg]|e].
  - unfold bind. rewrite H. rewrite last_fmap_cons.
    rewrite last_cons. fold (last_cfg (seed m input_) cs).
    replace (match last cs with Some y => Some y | None => Some (seed m input_) end)
      with (Some (last_cfg (seed m input_) cs)) by (unfold last_cfg; by destruct (last cs)).
    unfold obs_of. by destruct (action_of m (last_cfg (seed m input_) cs)).
  - destruct H as [w' H]. unfold bind. by rewrite H.
Qed.

Lemma rejects_fst m input_ kw w :
  (rejects m input_ kw w).1 =
    match accepts_value m input_ (default default_step_limit kw) with
    | Ok (Some b) => Ok (Some (negb b))
    | Ok None => Ok None
    | Raise e => Raise e
    end.
Proof.
  unfold rejects, accepts_kw, bind.
  rewrite <- (accepts_fst m input_ _ w).
  destruct (accepts m input_ _ w) as [[[b|]|e] w']; done.
Qed.

Lemma observe_fst m input_ n w :
  (observe m (run input_) n w).1 =
    match run_values m input_ n with
    | Ok (cs, _) => Ok (read_of m <$> cs)
    | Raise e => Raise e
    end.
Proof.
  unfold run_values. destruct n as [|n]; [done|].
  pose proof (observe_run m input_ n w) as H.
  destruct (pulls m n (seed m input_)) as [[cs lg]|e].
  - by rewrite H.
  - destruct H as [w' H]. by rewrite H.
Qed.

(** ** Bounded queries *)



(** C5.  For every machine, input and step limit (given or left out), and
    whatever the stores the two calls start from: [accepts] and [rejects]
    are never both [True]; [rejects] is [True] exactly when [accepts] is
    [False], [False] exactly when [accepts] is [True], and [None] exactly
    when [accepts] is [None]. *)
Theorem rejects_complements_accepts m input_ kwargs w w' :
  let a := (accepts_kw m input_ kwargs w).1 in
  let r := (rejects m input_ kwargs w').1 in
  ¬ (a = Ok (Some true) ∧ r = Ok (Some true)) ∧
  (r = Ok (Some true) ↔ a = Ok (Some false)) ∧
  (r = Ok (Some false) ↔ a = Ok (Some true)) ∧
  (r = Ok None ↔ a = Ok None).
Proof.
  intros a r. subst a r. unfold accepts_kw. rewrite accepts_fst, rejects_fst.
  destruct (accepts_value m input_ _) as [[[|]|]|e]; simpl;
    (split; [intros [? ?]; congruence|]); repeat split; congruence.
Qed.

(** C7.  On the [w#w] machine, whatever the store,
    [accepts('11110011001010#11110011001010', step_limit=1000)] is [True]
    and the same call with [step_limit=2] is [None]. *)
Theorem w_hash_w_accepts_long_input w :
  (accepts w_hash_w (InStr "11110011001010#11110011001010") 1000 w).1 = Ok (Some true) ∧
  (accepts w_hash_w (InStr "11110011001010#11110011001010") 2 w).1 = Ok None.
Proof. rewrite !accepts_fst. split; vm_compute; reflexivity. Qed.

(** C9.  [run] is deterministic: for every machine, input and number of
    pulls, two runs give the same sequence of (action, configuration)
    pairs, each read when it is yielded, whatever the stores they start
    from; a run that raises does so in both. *)
Theorem run_deterministic m input_ n w1 w2 :
  (observe m (run input_) n w1).1 = (observe m (run input_) n w2).1.
Proof. by rewrite !observe_fst. Qed.



(** ** One step of the generator *)

Lemma action_of_reject t s a rj b :
  states_to_actions (constructed (init t s a rj b)) !! rj = Some Reject.
Proof. simpl. apply lookup_insert_eq. Qed.

(** C2.  For every machine, state and symbol: when [(state, symbol)] is
    not a key of the table, the transition is
    [(reject_state, symbol, 'R')], and the [next] of a generator suspended
    in that state on that symbol does not raise: it writes the same symbol
    back, moves right (the symbol goes to the front of the left list, the
    new symbol is the front of the right list or the blank), logs nothing
    and yields the reject state with action ['Reject']. *)
Theorem unknown_pair_goes_to_reject t s a rj b state symbol l r lhs rhs w :
  let m := constructed (init t s a rj b) in
  t !! (state, symbol) = None →
  states_to_actions m !! state = None →
  l ≠ r → heap w !! l = Some lhs → heap w !! r = Some rhs →
  transition m state symbol = (rj, symbol, "R") ∧
  ∃ w',
    next m (Suspended state symbol l r (states_to_actions m !! state)) w =
      (Ok (Some (Some Reject, Snapshot rj l (hd b rhs) r),
           Suspended rj (hd b rhs) l r (Some Reject)), w') ∧
    items l w' = symbol :: lhs ∧ items r w' = tl rhs ∧ log w' = log w.
Proof.
  intros m Ht Hact Hne Hl Hr.
  assert (Htr : transition m state symbol = (rj, symbol, "R")).
  { unfold transition. subst m. simpl. by rewrite Ht. }
  split; [done|].
  set (c := Configuration state lhs symbol rhs).
  assert (Htape : tape_at w l r c) by done.
  pose proof (next_suspended m w l r c Htape Hact) as Hnext.
  unfold step in Hnext. change (cfg_state c) with state in Hnext.
  change (cfg_symbol c) with symbol in Hnext. rewrite Htr in Hnext.
  rewrite decide_True in Hnext by done.
  eexists. split; [|split; [|split]].
  - unfold gen_of in Hnext at 1. unfold action_of in Hnext at 1.
    change (cfg_state c) with state in Hnext. change (cfg_symbol c) with symbol in Hnext.
    rewrite Hnext. unfold obs_of, gen_of, action_of. cbn [cfg_state cfg_symbol].
    subst m. rewrite action_of_reject. reflexivity.
  - destruct (tape_at_put w l r c
      (Configuration rj (symbol :: lhs) (hd (blank_symbol m) rhs) (tl rhs)) [] Htape)
      as (_ & Hl' & _). by apply items_lookup.
  - destruct (tape_at_put w l r c
      (Configuration rj (symbol :: lhs) (hd (blank_symbol m) rhs) (tl rhs)) [] Htape)
      as (_ & _ & Hr'). by apply items_lookup.
  - simpl. by rewrite app_nil_r.
Qed.

Lemma unknown_pair_goes_to_reject_witness :
  transition one_hash "q0" "0" = ("qr", "0", "R") ∧
  ∃ w',
    next one_hash (Suspended "q0" "0" 0 1 None) (World [[""]; ["#"]] []) =
      (Ok (Some (Some Reject, Snapshot "qr" 0 "#" 1),
           Suspended "qr" "#" 0 1 (Some Reject)), w') ∧
    items 0 w' = ["0"; ""] ∧ items 1 w' = [] ∧ log w' = [].
Proof.
  apply (unknown_pair_goes_to_reject
           (dict_display [ (("q0", "#"), ("saw_#", "#", "R"));
                           (("saw_#", ""), ("qa", "", "R")) ])
           "q0" "qa" "qr" "" "q0" "0" 0 1 [""] ["#"] (World [[""]; ["#"]] []));
    [vm_compute; reflexivity | vm_compute; reflexivity | lia | reflexivity | reflexivity].
Defined.

(** C4 as the code has it.  Constructing a machine never fails and checks
    no direction.  A table entry whose direction is not ['R'] is taken at
    execution time: [next] moves left whenever the left list is not empty,
    whatever the direction is; only with an empty left list is the
    direction looked at, and then [next] raises [AssertionError] unless the
    direction is a substring of ['LR'], in which case the machine stays
    put and a warning is logged. *)
Theorem direction_checked_at_leftmost_cell_only
    t s a rj b state symbol state' symbol' d l r lhs rhs w :
  let m := constructed (init t s a rj b) in
  t !! (state, symbol) = Some (state', symbol', d) → d ≠ "R" →
  states_to_actions m !! state = None →
  l ≠ r → heap w !! l = Some lhs → heap w !! r = Some rhs →
  init t s a rj b = Ok m ∧ transitions m = t ∧
  match lhs with
  | x :: lhs' =>
    ∃ w',
      next m (Suspended state symbol l r (states_to_actions m !! state)) w =
        (Ok (Some (states_to_actions m !! state', Snapshot state' l x r),
             Suspended state' x l r (states_to_actions m !! state')), w') ∧
      items l w' = lhs' ∧ items r w' = symbol' :: rhs ∧ log w' = log w
  | [] =>
    if str_in d "LR" then
      ∃ w',
        next m (Suspended state symbol l r (states_to_actions m !! state)) w =
          (Ok (Some (states_to_actions m !! state', Snapshot state' l symbol' r),
               Suspended state' symbol' l r (states_to_actions m !! state')), w') ∧
        items l w' = [] ∧ items r w' = rhs ∧ log w' = log w ++ [LeftmostWarning]
    else
      next m (Suspended state symbol l r (states_to_actions m !! state)) w =
        (Raise AssertionError, w)
  end.
Proof.
  intros m Ht Hd Hact Hne Hl Hr.
  split; [reflexivity|]. split; [reflexivity|].
  assert (Htr : transition m state symbol = (state', symbol', d)).
  { unfold transition. subst m. simpl. by rewrite Ht. }
  set (c := Configuration state lhs symbol rhs).
  assert (Htape : tape_at w l r c) by done.
  pose proof (next_suspended m w l r c Htape Hact) as Hnext.
  unfold step in Hnext. change (cfg_state c) with state in Hnext.
  change (cfg_symbol c) with symbol in Hnext. rewrite Htr in Hnext.
  rewrite decide_False in Hnext by done.
  unfold gen_of in Hnext at 1. unfold action_of in Hnext at 1.
  change (cfg_state c) with state in Hnext. change (cfg_symbol c) with symbol in Hnext.
  change (cfg_left c) with lhs in Hnext. change (cfg_right c) with rhs in Hnext.
  destruct lhs as [|x lhs'].
  - destruct (str_in d "LR"); [|exact Hnext].
    eexists. split; [exact Hnext|].
    destruct (tape_at_put w l r c (Configuration state' [] symbol' rhs)
                [LeftmostWarning] Htape) as (_ & Hl' & Hr').
    split; [by apply items_lookup|]. split; [by apply items_lookup|done].
  - eexists. split; [exact Hnext|].
    destruct (tape_at_put w l r c (Configuration state' lhs' x (symbol' :: rhs))
                [] Htape) as (_ & Hl' & Hr').
    split; [by apply items_lookup|]. split; [by apply items_lookup|].
    simpl. by rewrite app_nil_r.
Qed.

Lemma direction_checked_at_leftmost_cell_only_witness :
  init_default bad_direction_transitions
    = Ok (constructed (init_default bad_direction_transitions)) ∧
  transitions (constructed (init_default bad_direction_transitions))
    = bad_direction_transitions ∧
  next (constructed (init_default bad_direction_transitions))
       (Suspended "q0" "" 0 1 None) (World [[]; [""]] [])
    = (Raise AssertionError, World [[]; [""]] []).
Proof.
  apply (direction_checked_at_leftmost_cell_only
           bad_direction_transitions "q0" "qa" "qr" ""
           "q0" "" "q0" "" "X" 0 1 [] [""] (World [[]; [""]] []));
    [vm_compute; reflexivity | discriminate | vm_compute; reflexivity
    | lia | reflexivity | reflexivity].
Defined.

(** C4 as stated does not hold: the table [{('q0', ''): ('q0', '', 'X')}]
    has a direction outside ['L'], ['R'], yet the construction returns a
    machine; the first two [next] of its run on the empty input yield
    (the second after a move to the left), and the third raises
    [AssertionError] in the middle of the execution. *)
Lemma malformed_direction_surfaces_at_run_time :
  bad_direction_transitions !! ("q0", "") = Some ("q0", "", "X") ∧
  ¬ directions_ok (constructed (init_default bad_direction_transitions)) ∧
  (∃ m, init_default bad_direction_transitions = Ok m ∧
        (observe m (run (InStr "")) 2 init_world).1
          = Ok [ (None, Configuration "q0" [""] "" []);
                 (None, Configuration "q0" [] "" [""]) ] ∧
        (observe m (run (InStr "")) 3 init_world).1 = Raise AssertionError ∧
        (accepts m (InStr "") 3 init_world).1 = Raise AssertionError).
Proof.
  split; [vm_compute; reflexivity|]. split.
  - intros H. specialize (H ("q0", "") ("q0", "", "X")). simpl in H.
    destruct H as [H|H]; [vm_compute; reflexivity|discriminate H|discriminate H].
  - eexists. split; [reflexivity|]. repeat split; vm_compute; reflexivity.
Qed.

(** ** The tests *)



Lemma go_left_seed input_ : input_empty input_ = true → seed go_left input_ = go_left_first.
Proof. intros H. unfold seed. by rewrite H. Qed.

Lemma go_left_pulls_origin n :
  pulls go_left n go_left_origin
    = Ok (replicate n go_left_origin, replicate n LeftmostWarning).
Proof.
  assert (Ha : action_of go_left go_left_origin = None) by (vm_compute; reflexivity).
  assert (Hs : step go_left go_left_origin = Ok (go_left_origin, [LeftmostWarning]))
    by (vm_compute; reflexivity).
  induction n as [|n IH]; [done|]. cbn [pulls]. by rewrite Ha, Hs, IH.
Qed.

Lemma go_left_pulls_first n :
  pulls go_left n go_left_first
    = Ok (replicate n go_left_origin, replicate (pred n) LeftmostWarning).
Proof.
  assert (Ha : action_of go_left go_left_first = None) by (vm_compute; reflexivity).
  assert (Hs : step go_left go_left_first = Ok (go_left_origin, []))
    by (vm_compute; reflexivity).
  destruct n as [|n]; [done|]. cbn [pulls]. by rewrite Ha, Hs, go_left_pulls_origin.
Qed.

(** C3.  The machine whose only transition is
    [('q0', '') -> ('q0', '', 'L')], run on an empty input from any store
    and pulled [n + 1] times, never raises and never stops: the first
    configuration read is [{q0, left [''], symbol '', right []}] and each
    of the [n] later ones is [{q0, left [], symbol '', right ['']}].  The
    first transition is a real move to the left; each later one leaves
    the head where it is and logs one warning. *)
Theorem go_left_stays_at_origin input_ n w :
  input_empty input_ = true →
  ∃ w',
    observe go_left (run input_) (S n) w =
      (Ok ((None, Configuration "q0" [""] "" [])
           :: replicate n (None, Configuration "q0" [] "" [""])), w') ∧
    log w' = log w ++ replicate (pred n) LeftmostWarning.
Proof.
  intros Hempty. pose proof (observe_run go_left input_ n w) as H.
  rewrite (go_left_seed _ Hempty), go_left_pulls_first in H.
  eexists. split.
  - rewrite H. by rewrite fmap_cons, fmap_replicate.
  - done.
Qed.

Lemma go_left_stays_at_origin_witness :
  ∃ w',
    observe go_left (run (InStr "")) 4 init_world =
      (Ok ((None, Configuration "q0" [""] "" [])
           :: replicate 3 (None, Configuration "q0" [] "" [""])), w') ∧
    log w' = log init_world ++ replicate 2 LeftmostWarning.
Proof. apply (go_left_stays_at_origin (InStr "") 3 init_world). reflexivity. Defined.

(** C6.  On the [w#w] machine, from any store, each of [''], [[]] and
    [['']] gives the same first configuration
    [{q0, left [''], symbol '', right []}]; the table has no entry for
    [('q0', '')], so the second configuration is in the reject state, the
    run stops there, and [rejects] with the default step limit is [True]. *)
Theorem w_hash_w_rejects_empty_input input_ w :
  input_ ∈ [InStr ""; InList []; InList [""]] →
  (observe w_hash_w (run input_) 1 w).1 = Ok [(None, Configuration "q0" [""] "" [])] ∧
  transitions w_hash_w !! ("q0", "") = None ∧
  (observe w_hash_w (run input_) default_step_limit w).1
    = Ok [ (None, Configuration "q0" [""] "" []);
           (Some Reject, Configuration "qr" [""; ""] "" []) ] ∧
  (rejects w_hash_w input_ None w).1 = Ok (Some true).
Proof.
  rewrite !elem_of_cons, elem_of_nil. rewrite !observe_fst, rejects_fst.
  intros [->|[->|[->|[]]]]; repeat split; vm_compute; reflexivity.
Qed.

Lemma w_hash_w_rejects_empty_input_witness :
  (observe w_hash_w (run (InList [])) 1 init_world).1
    = Ok [(None, Configuration "q0" [""] "" [])] ∧
  transitions w_hash_w !! ("q0", "") = None ∧
  (observe w_hash_w (run (InList [])) default_step_limit init_world).1
    = Ok [ (None, Configuration "q0" [""] "" []);
           (Some Reject, Configuration "qr" [""; ""] "" []) ] ∧
  (rejects w_hash_w (InList []) None init_world).1 = Ok (Some true).
Proof.
  apply (w_hash_w_rejects_empty_input (InList []) init_world).
  apply list_elem_of_further, list_elem_of_here.
Defined.

(** ** Snapshots and the tape they refer to *)

(** C8 as stated does not hold: on the go-left machine and the empty
    input, the first snapshot reads [{q0, left [''], symbol '', right []}]
    when it is yielded, and the same snapshot reads
    [{q0, left [], symbol '', right ['']}] after one more [next]. *)
Lemma snapshot_changes_after_next :
  ∃ o0 g1 w1 o1 g2 w2,
    next go_left (run (InStr "")) init_world = (Ok (Some o0, g1), w1) ∧
    next go_left g1 w1 = (Ok (Some o1, g2), w2) ∧
    view w1 o0.2 = Configuration "q0" [""] "" [] ∧
    view w2 o0.2 = Configuration "q0" [] "" [""] ∧
    view w1 o0.2 ≠ view w2 o0.2.
Proof.
  do 6 eexists. split; [vm_compute; reflexivity|].
  split; [vm_compute; reflexivity|].
  split; [vm_compute; reflexivity|].
  split; [vm_compute; reflexivity|].
  vm_compute. discriminate.
Qed.

(** C8 as the code has it.  The observations pulled from a run all refer
    to the same two list objects, which are the tape of the generator.
    Read after the pulls, the snapshot of step [i] has the state and the
    symbol it had when it was yielded, and the left and right sequences of
    the last configuration yielded. *)
Theorem snapshots_share_the_tape m input_ n w os w' :
  list_islice m (run input_) n w = (Ok os, w') →
  ∃ vs,
    (observe m (run input_) n w).1 = Ok vs ∧ length vs = length os ∧
    ∀ i o v vlast,
      os !! i = Some o → vs !! i = Some v → last vs = Some vlast →
      o.1 = v.1 ∧
      view w' o.2 = Configuration (cfg_state v.2) (cfg_left vlast.2)
                                  (cfg_symbol v.2) (cfg_right vlast.2).
Proof.
  destruct n as [|n].
  - intros [= <- <-]. exists []. split; [done|]. split; [done|].
    intros i o v vlast Hi. by rewrite lookup_nil in Hi.
  - pose proof (list_islice_run m input_ n w) as Hl.
    pose proof (observe_run m input_ n w) as Ho.
    destruct (pulls m n (seed m input_)) as [[cs lg]|e].
    + rewrite Hl, Ho. intros Heq.
      assert (Hos : obs_of m (length (heap w)) (S (length (heap w))) <$> seed m input_ :: cs = os)
        by congruence.
      assert (Hw : put (created w (seed m input_)) (length (heap w)) (S (length (heap w)))
                       (last_cfg (seed m input_) cs) lg = w') by congruence.
      clear Heq. subst os w'. exists (read_of m <$> seed m input_ :: cs). split; [reflexivity|].
      split; [by rewrite !length_fmap|].
      intros i o v vlast Hi Hv Hlast.
      rewrite last_fmap_cons in Hlast. injection Hlast as <-.
      rewrite list_lookup_fmap in Hi. rewrite list_lookup_fmap in Hv.
      destruct ((seed m input_ :: cs) !! i) as [c|]; [|done].
      simpl in Hi, Hv. injection Hi as <-. injection Hv as <-.
      split; [done|].
      destruct (tape_at_put _ _ _ _ (last_cfg (seed m input_) cs) lg
                  (tape_at_created w (seed m input_))) as (_ & Hleft & Hright).
      unfold view. cbn [obs_of snd snap_state snap_symbol
                        snap_left_hand_side snap_right_hand_side].
      rewrite (items_lookup _ _ _ Hleft), (items_lookup _ _ _ Hright).
      reflexivity.
    + destruct Hl as [w1 Hl]. rewrite Hl. discriminate.
Qed.

Lemma snapshots_share_the_tape_witness :
  ∃ os w' vs,
    list_islice go_left (run (InStr "")) 2 init_world = (Ok os, w') ∧
    (observe go_left (run (InStr "")) 2 init_world).1 = Ok vs ∧
    length vs = length os ∧
    ∀ i o v vlast,
      os !! i = Some o → vs !! i = Some v → last vs = Some vlast →
      o.1 = v.1 ∧
      view w' o.2 = Configuration (cfg_state v.2) (cfg_left vlast.2)
                                  (cfg_symbol v.2) (cfg_right vlast.2).
Proof.
  eexists _, _.
  assert (H : list_islice go_left (run (InStr "")) 2 init_world
              = (Ok [ (None, Snapshot "q0" 0 "" 1); (None, Snapshot "q0" 0 "" 1) ],
                 World [[]; [""]] [])) by (vm_compute; reflexivity).
  destruct (snapshots_share_the_tape go_left (InStr "") 2 init_world _ _ H)
    as (vs & H1 & H2 & H3).
  exists vs. split; [exact H|]. split; [exact H1|]. split; [exact H2|exact H3].
Defined.

(** ** More facts about the run on values *)

(** Every configuration pulled before the last one does not halt. *)
Lemma pulls_running m n : ∀ c cs lg i c',
  pulls m n c = Ok (cs, lg) → (c :: cs) !! i = Some c' → i < length cs →
  action_of m c' = None.
Proof.
  induction n as [|n IH]; intros c cs lg i c0; simpl.
  - intros [= <- <-] _ Hi. simpl in Hi. lia.
  - destruct (action_of m c) eqn:Hact; [intros [= <- <-] _ Hi; simpl in Hi; lia|].
    destruct (step m c) as [[c' lg1]|]; [|done].
    destruct (pulls m n c') as [[cs' lg']|] eqn:Hp; [|done].
    intros [= <- <-]. destruct i as [|i]; simpl.
    + intros [= <-] _. done.
    + intros Hl Hi. eapply IH; [exact Hp|exact Hl|lia].
Qed.

(** Two configurations pulled one after the other are one [step] apart. *)
Lemma pulls_chain m n : ∀ c cs lg i c1 c2,
  pulls m n c = Ok (cs, lg) → (c :: cs) !! i = Some c1 → cs !! i = Some c2 →
  action_of m c1 = None ∧ ∃ lg1, step m c1 = Ok (c2, lg1).
Proof.
  induction n as [|n IH]; intros c cs lg i c1 c2; simpl.
  - intros [= <- <-] _ Hi. by rewrite lookup_nil in Hi.
  - destruct (action_of m c) eqn:Hact; [intros [= <- <-] _ Hi; by rewrite lookup_nil in Hi|].
    destruct (step m c) as [[c' lg1]|] eqn:Hs; [|done].
    destruct (pulls m n c') as [[cs' lg']|] eqn:Hp; [|done].
    intros [= <- <-]. destruct i as [|i]; simpl.
    + intros [= <-] [= <-]. by eauto.
    + intros H1 H2. by eapply IH.
Qed.


(** Fewer pulls give a prefix. *)
Lemma pulls_take m n : ∀ c cs lg n',
  pulls m n c = Ok (cs, lg) → n' ≤ n → ∃ lg', pulls m n' c = Ok (take n' cs, lg').
Proof.
  induction n as [|n IH]; intros c cs lg n'; simpl.
  - intros [= <- <-] Hn. assert (n' = 0) as -> by lia. by eauto.
  - destruct n' as [|n']; [intros _ _; simpl; by eauto|].
    destruct (action_of m c) eqn:Hact.
    + intros [= <- <-] _. simpl. rewrite Hact. by eauto.
    + destruct (step m c) as [[c' lg1]|] eqn:Hs; [|done].
      destruct (pulls m n c') as [[cs' lg']|] eqn:Hp; [|done].
      intros [= <- <-] Hn. simpl. rewrite Hact, Hs.
      destruct (IH c' cs' lg' n' Hp) as [lg2 ->]; [lia|]. by eauto.
Qed.

(** The run on values of a fresh run, in the same terms. *)
Lemma run_values_cons m input_ n cs lg :
  run_values m input_ n = Ok (cs, lg) →
  n = 0 ∧ cs = [] ∨
  ∃ n0 cs0, n = S n0 ∧ cs = seed m input_ :: cs0 ∧ pulls m n0 (seed m input_) = Ok (cs0, lg).
Proof.
  unfold run_values. destruct n as [|n0]; [intros [= <- <-]; by left|].
  destruct (pulls m n0 (seed m input_)) as [[cs0 lg0]|] eqn:Hp; [|done].
  intros [= <- <-]. right. by eauto.
Qed.


Lemma run_values_take m input_ n n' cs lg :
  run_values m input_ n = Ok (cs, lg) → n' ≤ n →
  ∃ lg', run_values m input_ n' = Ok (take n' cs, lg').
Proof.
  intros Hr Hn.
  destruct (run_values_cons _ _ _ _ _ Hr) as [[-> ->]|(n0 & cs0 & -> & -> & Hp)].
  - assert (n' = 0) as -> by lia. by eauto.
  - destruct n' as [|n']; [by eauto|]. unfold run_values.
    destruct (pulls_take m n0 (seed m input_) cs0 lg n' Hp) as [lg' ->]; [lia|]. by eauto.
Qed.

Lemma observe_fst_Ok m input_ n w vs :
  (observe m (run input_) n w).1 = Ok vs →
  ∃ cs lg, run_values m input_ n = Ok (cs, lg) ∧ vs = read_of m <$> cs.
Proof.
  rewrite observe_fst. destruct (run_values m input_ n) as [[cs lg]|]; [|done].
  intros [= <-]. by eauto.
Qed.

(** ** Asking for more or fewer steps *)






(** X3.  Only the last observation of a run can halt: an observation
    whose action is ['Accept'] or ['Reject'] is the last one pulled,
    whatever the number of pulls asked for. *)
Theorem only_last_observation_halts m input_ n w vs i a c :
  (observe m (run input_) n w).1 = Ok vs → vs !! i = Some (Some a, c) →
  S i = length vs.
Proof.
  intros Ho Hi.
  destruct (observe_fst_Ok _ _ _ _ _ Ho) as (cs & lg & Hr & ->).
  rewrite list_lookup_fmap in Hi. rewrite length_fmap.
  destruct (cs !! i) as [c'|] eqn:Hc'; [|done]. injection Hi as Hact <-.
  destruct (run_values_cons _ _ _ _ _ Hr) as [[-> ->]|(n0 & cs0 & -> & -> & Hp)]; [done|].
  pose proof (lookup_lt_Some _ _ _ Hc') as Hlt. simpl in Hlt. simpl.
  destruct (decide (i < length cs0)) as [Hi|Hi]; [|lia].
  pose proof (pulls_running _ _ _ _ _ _ _ Hp Hc' Hi). congruence.
Qed.

Lemma only_last_observation_halts_witness :
  2 = length [ (@None action, Configuration "q0" [""] "" []);
               (Some Reject, Configuration "qr" [""; ""] "" []) ].
Proof.
  apply (only_last_observation_halts w_hash_w (InStr "") 100 init_world _ 1 Reject
           (Configuration "qr" [""; ""] "" []));
    [vm_compute; reflexivity | reflexivity].
Defined.

(** X4.  The observations of a run pulled [n'] times are the first [n']
    observations of the same run pulled [n >= n'] times. *)
Theorem observations_prefix m input_ n n' w w' vs :
  (observe m (run input_) n w).1 = Ok vs → n' ≤ n →
  (observe m (run input_) n' w').1 = Ok (take n' vs).
Proof.
  intros Ho Hn.
  destruct (observe_fst_Ok _ _ _ _ _ Ho) as (cs & lg & Hr & ->).
  destruct (run_values_take _ _ _ _ _ _ Hr Hn) as [lg' Hr'].
  by rewrite observe_fst, Hr', fmap_take.
Qed.

Lemma observations_prefix_witness :
  (observe go_left (run (InStr "")) 1 init_world).1
  = Ok (take 1 [ (None, Configuration "q0" [""] "" []);
                 (None, Configuration "q0" [] "" [""]) ]).
Proof.
  apply (observations_prefix go_left (InStr "") 2 1 init_world init_world);
    [vm_compute; reflexivity | lia].
Defined.

(** ** Inputs *)

(** X6.  For every machine the empty string, the empty list and the list
    holding one blank are the same input: the three runs yield the same
    observations and leave the same store, and so [accepts] agrees on
    them. *)
Theorem empty_inputs_are_one_blank m n w :
  observe m (run (InStr "")) n w = observe m (run (InList [blank_symbol m])) n w ∧
  observe m (run (InList [])) n w = observe m (run (InList [blank_symbol m])) n w ∧
  accepts m (InStr "") n w = accepts m (InList [blank_symbol m]) n w ∧
  accepts m (InList []) n w = accepts m (InList [blank_symbol m]) n w.
Proof.
  assert (H1 : next m (run (InStr "")) w = next m (run (InList [blank_symbol m])) w) by done.
  assert (H2 : next m (run (InList [])) w = next m (run (InList [blank_symbol m])) w) by done.
  assert (L1 : list_islice m (run (InStr "")) n w
               = list_islice m (run (InList [blank_symbol m])) n w).
  { destruct n as [|k]; [done|]. cbn [list_islice]. unfold bind. by rewrite H1. }
  assert (L2 : list_islice m (run (InList [])) n w
               = list_islice m (run (InList [blank_symbol m])) n w).
  { destruct n as [|k]; [done|]. cbn [list_islice]. unfold bind. by rewrite H2. }
  split; [|split; [|split]].
  - destruct n as [|k]; [done|]. cbn [observe]. unfold bind. by rewrite H1.
  - destruct n as [|k]; [done|]. cbn [observe]. unfold bind. by rewrite H2.
  - unfold accepts, bind. by rewrite L1.
  - unfold accepts, bind. by rewrite L2.
Qed.

(** ** debug and the script *)

Lemma debug_loop_observe m colored n : ∀ g out w,
  match observe m g n w with
  | (Ok vs, w') =>
    debug_loop m colored g n out w
    = (Ok tt, w', out ++ ((λ v, format_line colored v.2) <$> vs))
  | (Raise e, w') =>
    ∃ lines, debug_loop m colored g n out w = (Raise e, w', out ++ lines) ∧ length lines < n
  end.
Proof.
  induction n as [|n IH]; intros g out w; cbn [observe debug_loop].
  - unfold ret. simpl. by rewrite app_nil_r.
  - unfold bind. destruct (next m g w) as [[[[[a cfg]|] g']|e] w1].
    + specialize (IH g' (out ++ [format_line colored (view w1 cfg)]) w1). cbn beta iota.
      destruct (observe m g' n w1) as [[vs|e] w2].
      * rewrite IH. unfold ret. simpl. by rewrite <- app_assoc.
      * destruct IH as (lines & -> & Hlen).
        exists (format_line colored (view w1 cfg) :: lines).
        rewrite <- app_assoc. split; [done|simpl; lia].
    + unfold ret. simpl. by rewrite app_nil_r.
    + exists []. rewrite app_nil_r. split; [done|simpl; lia].
Qed.


Lemma debug_lines m input_ n colored out w vs :
  (observe m (run input_) n w).1 = Ok vs →
  (debug m input_ n colored out w).1.1 = Ok tt ∧
  (debug m input_ n colored out w).2 = out ++ ((λ v, format_line colored v.2) <$> vs).
Proof.
  intros Ho. pose proof (debug_loop_observe m colored n (run input_) out w) as H.
  destruct (observe m (run input_) n w) as [[vs'|e] w']; [|done].
  simpl in Ho. injection Ho as ->. unfold debug. by rewrite H.
Qed.

(** The lines [test_debug] expects for ['101X101'] in plain mode. *)
Example debug_101X101_plain w :
  (debug w_hash_w (InStr "101X101") default_step_limit false [] w).2
  = [ "q0                             [1]01X101";
      "FindDelimiter1                 X[0]1X101";
      "FindDelimiter1                 X0[1]X101";
      "FindDelimiter1                 X01[X]101";
      "qr                             X01X[1]01" ].
Proof.
  eapply eq_trans; [eapply debug_lines; rewrite observe_fst; vm_compute; reflexivity|].
  vm_compute. reflexivity.
Qed.

(** The same in colored mode: the markers are the two escape sequences. *)
Example debug_101X101_colored w :
  (debug w_hash_w (InStr "101X101") default_step_limit true [] w).2
  = [ "q0                             " +:+ String "027" "[47;1m1" +:+ String "027" "[0m01X101";
      "FindDelimiter1                 X" +:+ String "027" "[47;1m0" +:+ String "027" "[0m1X101";
      "FindDelimiter1                 X0" +:+ String "027" "[47;1m1" +:+ String "027" "[0mX101";
      "FindDelimiter1                 X01" +:+ String "027" "[47;1mX" +:+ String "027" "[0m101";
      "qr                             X01X" +:+ String "027" "[47;1m1" +:+ String "027" "[0m01" ].
Proof.
  eapply eq_trans; [eapply debug_lines; rewrite observe_fst; vm_compute; reflexivity|].
  vm_compute. reflexivity.
Qed.

Lemma w_hash_w_asserts_pass w : ∃ w', w_hash_w_asserts w = (Ok tt, w').
Proof.
  unfold w_hash_w_asserts, bind.
  pose proof (accepts_fst w_hash_w (InStr "#") default_step_limit w) as H1.
  unfold accepts_kw. cbn [default].
  destruct (accepts w_hash_w (InStr "#") default_step_limit w) as [r1 w1].
  simpl in H1. subst r1. vm_compute accepts_value. cbn [truthy assert ret].
  pose proof (accepts_fst w_hash_w (InStr "1#1") default_step_limit w1) as H2.
  destruct (accepts w_hash_w (InStr "1#1") default_step_limit w1) as [r2 w2].
  simpl in H2. subst r2. vm_compute accepts_value. cbn [truthy assert ret].
  pose proof (rejects_fst w_hash_w (InStr "##") None w2) as H3.
  unfold rejects, accepts_kw, bind in H3. cbn [default] in H3.
  unfold rejects, accepts_kw, bind. cbn [default].
  destruct (accepts w_hash_w (InStr "##") default_step_limit w2) as [r3 w3].
  revert H3. vm_compute accepts_value. destruct r3 as [[[|]|]|e]; simpl; try done.
  by eauto.
Qed.

(** X17.  Importing the module [w_hash_w.py], from any store and after any
    earlier output: its three [assert] statements pass, nothing raises,
    and its [debug] call prints exactly the 25 lines that
    [test_scrip_w_hash_w] expects. *)
Theorem w_hash_w_script_output out w :
  (w_hash_w_script out w).1.1 = Ok tt ∧
  (w_hash_w_script out w).2 = out ++
    [ "q0                             [1]0#10";
      "FindDelimiter1                 X[0]#10";
      "FindDelimiter1                 X0[#]10";
      "Check1                         X0#[1]0";
      "FindLeftmost                   X0[#]X0";
      "FindLeftmost                   X[0]#X0";
      "FindLeftmost                   [X]0#X0";
      "FindLeftmost                   []X0#X0";
      "FindNext                       [X]0#X0";
      "FindNext                       X[0]#X0";
      "FindDelimiter0                 XX[#]X0";
      "Check0                         XX#[X]0";
      "Check0                         XX#X[0]";
      "FindLeftmost                   XX#[X]X";
      "FindLeftmost                   XX[#]XX";
      "FindLeftmost                   X[X]#XX";
      "FindLeftmost                   [X]X#XX";
      "FindLeftmost                   []XX#XX";
      "FindNext                       [X]X#XX";
      "FindNext                       X[X]#XX";
      "FindNext                       XX[#]XX";
      "End                            XX#[X]X";
      "End                            XX#X[X]";
      "End                            XX#XX[]";
      "qa                             XX#XX[]" ].
Proof.
  unfold w_hash_w_script. destruct (w_hash_w_asserts_pass w) as [w' ->].
  split.
  - eapply proj1, debug_lines. rewrite observe_fst. vm_compute. reflexivity.
  - eapply eq_trans;
      [eapply proj2, debug_lines; rewrite observe_fst; vm_compute; reflexivity|].
    f_equal.
Qed.

(** ** The two lists as one tape *)

Lemma step_tape m c c' lg state' symbol' d :
  step m c = Ok (c', lg) →
  transition m (cfg_state c) (cfg_symbol c) = (state', symbol', d) →
  cfg_state c' = state' ∧
  tape c' !! head_position c' = Some (cfg_symbol c') ∧
  if decide (d = "R") then
    head_position c' = S (head_position c) ∧
    tape c' = <[head_position c := symbol']> (tape c)
              ++ (if cfg_right c is [] then [blank_symbol m] else [])
  else
    head_position c' = pred (head_position c) ∧
    tape c' = <[head_position c := symbol']> (tape c).
Proof.
  unfold step, tape, head_position. intros Hs Htr. rewrite Htr in Hs. revert Hs.
  assert (Hhead : ∀ l (x : pystr) r, (rev l ++ x :: r) !! length l = Some x).
  { intros l x r. rewrite lookup_app_r by (rewrite length_rev; lia).
    by rewrite length_rev, Nat.sub_diag. }
  assert (Hins : ∀ l (x y : pystr) r, <[length l := y]> (rev l ++ x :: r) = rev l ++ y :: r).
  { intros l x y r. rewrite insert_app_r_alt by (rewrite length_rev; lia).
    by rewrite length_rev, Nat.sub_diag. }
  destruct (decide (d = "R")) as [->|Hd].
  - intros [= <- <-]. cbn [cfg_state cfg_left cfg_symbol cfg_right].
    split; [done|]. split; [apply Hhead|]. split; [done|].
    rewrite Hins. simpl. rewrite <- app_assoc. simpl.
    destruct (cfg_right c); simpl; [by rewrite <- app_assoc|by rewrite app_nil_r].
  - destruct (cfg_left c) as [|x lhs] eqn:Hleft.
    + destruct (str_in d "LR"); [|done]. intros [= <- <-].
      cbn [cfg_state cfg_left cfg_symbol cfg_right]. done.
    + intros [= <- <-]. cbn [cfg_state cfg_left cfg_symbol cfg_right].
      split; [done|]. split; [apply Hhead|]. split; [done|].
      rewrite (Hins (x :: lhs)). simpl. by rewrite <- app_assoc.
Qed.

(** X8.  Two observations that follow each other are one move of the
    machine apart.  Reading the configuration as one tape (the left list
    reversed, the symbol, the right list) with the head at the length of
    the left list: the earlier observation has no action, the later one is
    in the state of the transition, the cell the head was on holds the
    written symbol and no other cell changed; a move to the right puts the
    head one cell further and adds a blank cell when it leaves the end of
    the tape; any other direction puts the head one cell back, or leaves
    it at cell 0. *)
Theorem consecutive_observations_are_one_move
    m input_ n w vs i a c a' c' state' symbol' d :
  (observe m (run input_) n w).1 = Ok vs →
  vs !! i = Some (a, c) → vs !! S i = Some (a', c') →
  transition m (cfg_state c) (cfg_symbol c) = (state', symbol', d) →
  a = None ∧ a' = states_to_actions m !! state' ∧ cfg_state c' = state' ∧
  tape c' !! head_position c' = Some (cfg_symbol c') ∧
  if decide (d = "R") then
    head_position c' = S (head_position c) ∧
    tape c' = <[head_position c := symbol']> (tape c)
              ++ (if cfg_right c is [] then [blank_symbol m] else [])
  else
    head_position c' = pred (head_position c) ∧
    tape c' = <[head_position c := symbol']> (tape c).
Proof.
  intros Ho Hi Hi' Htr.
  destruct (observe_fst_Ok _ _ _ _ _ Ho) as (cs & lg & Hr & ->).
  rewrite list_lookup_fmap in Hi. rewrite list_lookup_fmap in Hi'.
  destruct (cs !! i) as [c1|] eqn:H1; [|done].
  destruct (cs !! S i) as [c2|] eqn:H2; [|done].
  injection Hi as <- <-. injection Hi' as <- <-.
  destruct (run_values_cons _ _ _ _ _ Hr) as [[-> ->]|(n0 & cs0 & -> & -> & Hp)]; [done|].
  simpl in H2.
  destruct (pulls_chain _ _ _ _ _ _ _ _ Hp H1 H2) as (Hact & lg1 & Hs).
  destruct (step_tape _ _ _ _ _ _ _ Hs Htr) as (Hst & Hhead & Hmove).
  split; [done|]. split; [unfold action_of; by rewrite Hst|]. done.
Qed.

Lemma consecutive_observations_are_one_move_witness :
  @None action = None ∧ Some Reject = states_to_actions one_hash !! "qr" ∧
  cfg_state (Configuration "qr" ["0"; ""] "" []) = "qr" ∧
  tape (Configuration "qr" ["0"; ""] "" [])
    !! head_position (Configuration "qr" ["0"; ""] "" []) = Some "" ∧
  head_position (Configuration "qr" ["0"; ""] "" [])
    = S (head_position (Configuration "q0" [""] "0" [])) ∧
  tape (Configuration "qr" ["0"; ""] "" [])
    = <[head_position (Configuration "q0" [""] "0" []) := "0"]>
        (tape (Configuration "q0" [""] "0" [])) ++ [blank_symbol one_hash].
Proof.
  apply (consecutive_observations_are_one_move one_hash (InStr "0") 2 init_world
           [ (None, Configuration "q0" [""] "0" []);
             (Some Reject, Configuration "qr" ["0"; ""] "" []) ]
           0 None (Configuration "q0" [""] "0" [])
           (Some Reject) (Configuration "qr" ["0"; ""] "" []) "qr" "0" "R");
    [vm_compute; reflexivity | reflexivity | reflexivity | vm_compute; reflexivity].
Defined.

(** X9.  The first observation of every run, which never raises: it is in
    the start state, the tape is the blank cell followed by the input (by
    one more blank cell when the input is empty) and the head is on cell 1,
    the first symbol of the input. *)
Theorem first_observation m input_ w :
  ∃ c,
    (observe m (run input_) 1 w).1 = Ok [(states_to_actions m !! start_state m, c)] ∧
    cfg_state c = start_state m ∧ head_position c = 1 ∧
    tape c = blank_symbol m ::
             (if input_empty input_ then [blank_symbol m] else input_items input_).
Proof.
  exists (seed m input_). split; [by rewrite observe_fst|].
  unfold seed, tape, head_position. cbn [cfg_state cfg_left cfg_symbol cfg_right].
  split; [done|]. split; [done|].
  destruct input_ as [[|a s]|[|x l]]; done.
Qed.

(** ** What a call does to the store and the log *)






(** ** Several generators on one store *)

(** A lookup at a location that the inserts before it do not touch. *)
Ltac other_list :=
  repeat (rewrite list_lookup_insert_ne; [|done]); done.

Lemma next_keeps_other_lists m g w l v :
  heap w !! l = Some v →
  match g with
  | Suspended _ _ l2 r2 _ => l2 ≠ l ∧ r2 ≠ l
  | _ => True
  end →
  heap (next m g w).2 !! l = Some v.
Proof.
  intros Hl Hg. destruct g as [input_|state symbol l2 r2 action_|].
  - unfold run in *. rewrite next_created. simpl. by apply lookup_app_l_Some.
  - destruct Hg as [Hl2 Hr2]. unfold next, loop_rest, bind.
    destruct action_ as [a|]; [done|].
    destruct (transition m state symbol) as [[state' symbol'] d].
    destruct (decide (d = "R")).
    + unfold list_insert0, try_except, list_pop0; simpl.
      destruct (items r2 _) as [|x rest]; simpl; other_list.
    + unfold list_bool; simpl. destruct (items l2 w) as [|x rest] eqn:Hitems; simpl.
      * unfold assert. destruct (str_in d "LR"); done.
      * unfold list_insert0, list_pop0; simpl.
        destruct (items l2 (World _ _)) as [|y rest']; simpl; other_list.
  - done.
Qed.

(** X12.  Generators do not interfere: resuming any generator [g2] that
    works on other lists, or starting a new run, leaves a suspended
    generator with the same future: the observations it yields afterwards
    are the ones it would have yielded had [g2] not been touched. *)
Theorem generators_do_not_interfere
    m state symbol l r lhs rhs w m2 g2 k :
  l ≠ r → heap w !! l = Some lhs → heap w !! r = Some rhs →
  match g2 with
  | Suspended _ _ l2 r2 _ => (l2 ≠ l ∧ r2 ≠ l) ∧ (l2 ≠ r ∧ r2 ≠ r)
  | _ => True
  end →
  (observe m (Suspended state symbol l r (states_to_actions m !! state)) k
           (next m2 g2 w).2).1
  = (observe m (Suspended state symbol l r (states_to_actions m !! state)) k w).1.
Proof.
  intros Hne Hl Hr Hg.
  set (c := Configuration state lhs symbol rhs).
  assert (Ht : tape_at w l r c) by done.
  assert (Ht' : tape_at (next m2 g2 w).2 l r c).
  { split; [done|]. split.
    - apply next_keeps_other_lists; [done|]. destruct g2; [done| |done]. tauto.
    - apply next_keeps_other_lists; [done|]. destruct g2; [done| |done]. tauto. }
  pose proof (observe_suspended m k _ _ _ _ Ht) as H.
  pose proof (observe_suspended m k _ _ _ _ Ht') as H'.
  change (Suspended state symbol l r (states_to_actions m !! state)) with (gen_of m l r c).
  destruct (pulls m k c) as [[cs lg]|e].
  - by rewrite H, H'.
  - destruct H as [w1 ->]. by destruct H' as [w2 ->].
Qed.

Lemma generators_do_not_interfere_witness :
  (observe one_hash (Suspended "q0" "#" 0 1 (states_to_actions one_hash !! "q0")) 3
           (next w_hash_w (run (InStr "1#1")) (World [[""]; []] [])).2).1
  = (observe one_hash (Suspended "q0" "#" 0 1 (states_to_actions one_hash !! "q0")) 3
             (World [[""]; []] [])).1.
Proof.
  apply (generators_do_not_interfere one_hash "q0" "#" 0 1 [""] []
           (World [[""]; []] []) w_hash_w (run (InStr "1#1")) 3);
    [lia | reflexivity | reflexivity | exact I].
Defined.

(** ** Accept and reject states *)

Lemma init_actions t s a rj b state :
  states_to_actions (constructed (init t s a rj b)) !! state
  = if decide (rj = state) then Some Reject
    else if decide (a = state) then Some Accept else None.
Proof.
  simpl. rewrite lookup_insert. case_decide; [done|].
  rewrite lookup_insert. by case_decide.
Qed.

(** X14.  A machine built with the same state as accept and reject state
    never accepts: the reject entry overwrites the accept entry of the
    action table, so [accepts] is never [True] and [rejects] never
    [False], for any table, input, step limit and store. *)
Theorem same_accept_and_reject_state_never_accepts t s a b input_ n w :
  (accepts (constructed (init t s a a b)) input_ n w).1 ≠ Ok (Some true) ∧
  (rejects (constructed (init t s a a b)) input_ (Some n) w).1 ≠ Ok (Some false).
Proof.
  rewrite accepts_fst, rejects_fst. cbn [default]. unfold id.
  assert (H : accepts_value (constructed (init t s a a b)) input_ n ≠ Ok (Some true)).
  { unfold accepts_value. destruct (run_values _ _ _) as [[cs lg]|]; [|done].
    destruct (last cs) as [c|]; [|done]. unfold action_of.
    rewrite init_actions. repeat case_decide; done. }
  split; [done|]. destruct (accepts_value _ _ _) as [[[|]|]|]; done.
Qed.



(** ** The machine of the module docstring *)





